(** * tastypie-utils: resource mixins and the [authorize_api] decorator

    A shallow embedding of [resources.py].  Python dictionaries are finite
    maps ([gmap]), objects that the code mutates in place live in a store
    indexed by references, and exceptions are an explicit outcome of every
    operation that can raise. *)

From Stdlib Require Import Ascii String.
From stdpp Require Import gmap strings list fin_maps.

Local Open Scope string_scope.

(** ** Python built-ins used by the module *)

Module Py.

(** References to heap objects. *)
Definition loc := nat.

(** [str.split(sep)] for a one-character separator: the result always
    has one more element than the string has separators, so the empty
    string splits into one empty piece. *)
Fixpoint split (sep : ascii) (s : string) : list string :=
  match s with
  | EmptyString => [EmptyString]
  | String c rest =>
      if Ascii.eqb c sep then EmptyString :: split sep rest
      else match split sep rest with
           | [] => [String c EmptyString]
           | w :: ws => String c w :: ws
           end
  end.

(** [s.startswith(p)] *)
Definition startswith (s p : string) : bool := String.prefix p s.

(** Truth value of a string: only the empty string is false. *)
Definition str_truthy (s : string) : bool := negb (String.eqb s "").

(** Truth value of the result of [QueryDict.get(key, default)] when the
    default is one of the false values [None], [[]] or ['']: the lookup
    is either the default (modelled by [None]) or the stored string. *)
Definition truthy (o : option string) : bool :=
  match o with
  | None => false
  | Some s => str_truthy s
  end.

(** The character [sep] does not occur in [s]. *)
Fixpoint free_of (sep : ascii) (s : string) : bool :=
  match s with
  | EmptyString => true
  | String c rest => negb (Ascii.eqb c sep) && free_of sep rest
  end.

Definition comma : ascii := ","%char.

End Py.

(** ** [ModelResourceUtils] *)

Module ModelResourceUtils.
Import Py.

Inductive exn : Type :=
| KeyError (key : string).

Inductive result (A : Type) : Type :=
| Ok (a : A)
| Raise (e : exn).
Arguments Ok {A} a.
Arguments Raise {A} e.

(** [{k: d[k] for k in keys}]: the keys are visited in order, a key that
    [d] lacks raises [KeyError] at once, a repeated key is stored again. *)
Fixpoint dict_comp {V : Type} (keys : list string) (d acc : gmap string V)
  : result (gmap string V) :=
  match keys with
  | [] => Ok acc
  | k :: keys' =>
      match d !! k with
      | None => Raise (KeyError k)
      | Some v => dict_comp keys' d (<[k := v]> acc)
      end
  end.

Section WithValues.
Context {V : Type}.

(** The request as far as the mixin reads it: [request.GET.get(k)]
    is the lookup of [k] in [GET]. *)
Record Request : Type := mkRequest { GET : gmap string string }.

Record Bundle : Type := mkBundle {
  request : Request;
  data : gmap string V
}.

(** Bundles are framework objects mutated in place. *)
Definition store : Type := loc -> Bundle.

Definition set_data (d : gmap string V) (b : Bundle) : Bundle :=
  {| request := request b; data := d |}.

Definition store_set (l : loc) (b : Bundle) (st : store) : store :=
  fun l' => if Nat.eqb l' l then b else st l'.

(** [dehydrate(self, bundle)]: the returned reference and the store
    after the call. *)
Definition dehydrate (bundle : loc) (st : store) : store * result loc :=
  let b := st bundle in
  let include_fields := GET (request b) !! "include_fields" in
  let exclude_fields := GET (request b) !! "exclude_fields" in
  if negb (truthy exclude_fields) && negb (truthy include_fields) then
    (st, Ok bundle)
  else
    let include_fields' :=
      if negb (truthy include_fields) then
        let exclude_fields' := split comma (default "" exclude_fields) in
        elements (dom (data b) ∖ list_to_set exclude_fields')
      else
        split comma (default "" include_fields) in
    match dict_comp include_fields' (data b) ∅ with
    | Raise e => (st, Raise e)
    | Ok d => (store_set bundle (set_data d b) st, Ok bundle)
    end.

(** [alter_list_data_to_serialize(self, request, data)] *)
Definition alter_list_data_to_serialize (req : Request)
    (data : gmap string V) : result (gmap string V) :=
  if truthy (GET req !! "meta_only") then
    match data !! "meta" with
    | None => Raise (KeyError "meta")
    | Some m => Ok {[ "meta" := m ]}
    end
  else Ok data.

End WithValues.
Arguments Request : clear implicits.
Arguments Bundle : clear implicits.
Arguments store : clear implicits.

End ModelResourceUtils.

(** ** [MultipartResource] *)

Module MultipartResource.
Import Py.

Section WithFramework.
(** What the host framework owns: the dictionary type of
    [request.POST] and [request.FILES], the payload handed to
    [deserialize], keyword arguments, the exceptions and the values the
    superclass produces, and the outcome of a superclass detail view. *)
Variables (QueryDict Data Parsed Kwargs Exn DetailOutcome : Type).

(** [MultiValueDict.update(other)] of the framework, as a function of
    the receiver's contents. *)
Variable update : QueryDict -> QueryDict -> QueryDict.

(** Dictionaries are mutable objects: a heap with a bump allocator. *)
Record heap : Type := mkHeap {
  next : loc;
  objs : loc -> QueryDict
}.

Record HttpRequest : Type := mkHttpRequest {
  META : gmap string string;
  POST : loc;
  FILES : QueryDict;
  _body : option string   (* [None]: the attribute is not set *)
}.

Inductive value : Type :=
| Ref (l : loc)           (* a dictionary object *)
| Other (p : Parsed).     (* whatever the superclass deserialized *)

Inductive result (A : Type) : Type :=
| Ok (a : A)
| Raise (e : Exn).
Arguments Ok {A} a.
Arguments Raise {A} e.

Variable super_deserialize :
  HttpRequest -> Data -> string -> heap -> heap * result value.
Variable super_put_detail : HttpRequest -> Kwargs -> DetailOutcome.
Variable super_patch_detail : HttpRequest -> Kwargs -> DetailOutcome.

Definition heap_set (l : loc) (d : QueryDict) (h : heap) : heap :=
  {| next := next h;
     objs := fun l' => if Nat.eqb l' l then d else objs h l' |}.

(** [d.copy()]: a new object with the contents of [d]. *)
Definition copy (l : loc) (h : heap) : heap * loc :=
  ({| next := S (next h);
      objs := fun l' => if Nat.eqb l' (next h) then objs h l
                        else objs h l' |},
   next h).

(** [d.update(other)]: in place. *)
Definition update_in_place (l : loc) (other : QueryDict) (h : heap)
  : heap :=
  heap_set l (update (objs h l) other) h.

(** [deserialize(self, request, data, format=None)] *)
Definition deserialize (request : HttpRequest) (data : Data)
    (format : option string) (h : heap) : heap * result value :=
  let format :=
    if negb (truthy format) then
      default "application/json" (META request !! "CONTENT_TYPE")
    else default "" format in
  if String.eqb format "application/x-www-form-urlencoded" then
    (h, Ok (Ref (POST request)))
  else if startswith format "multipart/form-data" then
    let '(h1, multipart_data) := copy (POST request) h in
    let h2 := update_in_place multipart_data (FILES request) h1 in
    (h2, Ok (Ref multipart_data))
  else
    super_deserialize request data format h.

Definition hasattr_body (request : HttpRequest) : bool :=
  match _body request with Some _ => true | None => false end.

Definition set_body (s : string) (request : HttpRequest) : HttpRequest :=
  {| META := META request; POST := POST request;
     FILES := FILES request; _body := Some s |}.

(** The two guards are the same statement. *)
Definition ensure_body (request : HttpRequest) : HttpRequest :=
  if startswith (default "" (META request !! "CONTENT_TYPE"))
                "multipart/form-data"
     && negb (hasattr_body request)
  then set_body "" request
  else request.

(** [put_detail(self, request, **kwargs)] *)
Definition put_detail (request : HttpRequest) (kwargs : Kwargs)
  : DetailOutcome :=
  super_put_detail (ensure_body request) kwargs.

(** [patch_detail(self, request, **kwargs)] *)
Definition patch_detail (request : HttpRequest) (kwargs : Kwargs)
  : DetailOutcome :=
  super_patch_detail (ensure_body request) kwargs.

End WithFramework.

Arguments Ok {Exn A} a.
Arguments Raise {Exn A} e.
Arguments Ref {Parsed} l.
Arguments Other {Parsed} p.

End MultipartResource.

(** ** [authorize_api] *)

Module AuthorizeApi.

Section WithResource.
(** Framework types: requests, positional and keyword arguments of the
    view, responses, authentication policies, exceptions other than
    [ImmediateHttpResponse], and the rest of the resource's state. *)
Variables (HttpRequest Args Response Auth OtherExn World : Type).

Inductive exn : Type :=
| ImmediateHttpResponse (response : Response)
| OtherException (e : OtherExn).

(** The resource object: [resource._meta.authentication] and whatever
    else the framework hooks read and write. *)
Record Resource : Type := mkResource {
  authentication : Auth;
  world : World
}.

(** Calls made by the wrapped view, recorded in the order made. *)
Inductive call : Type :=
| MethodCheck (request : HttpRequest) (allowed : list string)
| ThrottleCheck (request : HttpRequest)
| IsAuthenticated (request : HttpRequest)
| ViewFunc (request : HttpRequest) (args : Args).

Record state : Type := mkState {
  resource : Resource;
  calls : list call
}.

(** How a block of statements ends. *)
Inductive outcome (A : Type) : Type :=
| Normal (a : A)
| Return (r : Response)
| Raise (e : exn).
Arguments Normal {A} a.
Arguments Return {A} r.
Arguments Raise {A} e.

Definition M (A : Type) : Type := state -> state * outcome A.

Definition ret {A} (a : A) : M A := fun s => (s, Normal a).

Definition bind {A B} (m : M A) (k : A -> M B) : M B :=
  fun s =>
    match m s with
    | (s', Normal a) => k a s'
    | (s', Return r) => (s', Return r)
    | (s', Raise e) => (s', Raise e)
    end.

Definition return_ {A} (r : Response) : M A := fun s => (s, Return r).

(** A framework hook: it may change the resource, and returns or
    raises. *)
Definition hook (A : Type) : Type := Resource -> Resource * (exn + A).

Definition invoke {A} (c : call) (f : hook A) : M A :=
  fun s =>
    let '(r', o) := f (resource s) in
    ({| resource := r'; calls := calls s ++ [c] |},
     match o with inl e => Raise e | inr a => Normal a end).

Definition get_authentication : M Auth :=
  fun s => (s, Normal (authentication (resource s))).

(** [resource._meta.authentication = a] *)
Definition with_authentication (a : Auth) (r : Resource) : Resource :=
  {| authentication := a; world := world r |}.

Definition set_authentication (a : Auth) : M unit :=
  fun s =>
    ({| resource := with_authentication a (resource s); calls := calls s |},
     Normal tt).

(** [try: body  except ImmediateHttpResponse, ex: handler  finally: fin].
    The handler receives [ex.response].  The [finally] block always
    runs, and the pending outcome survives it unless it returns or
    raises itself. *)
Definition try_except_finally {A} (body : M A)
    (handler : Response -> M A) (fin : M unit) : M A :=
  fun s =>
    let '(s1, o1) := body s in
    let '(s2, o2) :=
      match o1 with
      | Raise (ImmediateHttpResponse response) => handler response s1
      | _ => (s1, o1)
      end in
    match fin s2 with
    | (s3, Normal _) => (s3, o2)
    | (s3, Return r) => (s3, Return r)
    | (s3, Raise e) => (s3, Raise e)
    end.

(** The resource's own checks and the decorated view. *)
Variable method_check : HttpRequest -> list string -> hook unit.
Variable throttle_check : HttpRequest -> hook unit.
Variable is_authenticated : HttpRequest -> hook unit.
Variable view_func : HttpRequest -> Args -> hook Response.

(** Truth value of an authentication object ([if custom_auth:]). *)
Variable auth_truthy : Auth -> bool.

#[export] Instance M_ret : MRet M := @ret.
#[export] Instance M_bind : MBind M := fun A B k m => bind m k.

(** [_wrapped_view(request, *args, **kwargs)] of
    [authorize_api(resource, allowed_methods, custom_auth)(view_func)]. *)
Definition _wrapped_view (allowed_methods : list string)
    (custom_auth : option Auth) (request : HttpRequest) (args : Args)
  : M unit :=
  invoke (MethodCheck request allowed_methods)
         (method_check request allowed_methods) ;;
  invoke (ThrottleCheck request) (throttle_check request) ;;
  resource_auth ← get_authentication ;
  match custom_auth with
  | Some a => if auth_truthy a then set_authentication a else mret tt
  | None => mret tt
  end ;;
  try_except_finally
    (invoke (IsAuthenticated request) (is_authenticated request))
    (fun response => return_ response)
    (set_authentication resource_auth) ;;
  r ← invoke (ViewFunc request args) (view_func request args) ;
  return_ r.

(** The calls of a complete run, in the order of the source. *)
Definition check_sequence (allowed_methods : list string)
    (request : HttpRequest) (args : Args) : list call :=
  [MethodCheck request allowed_methods; ThrottleCheck request;
   IsAuthenticated request; ViewFunc request args].

(** The resource as [is_authenticated] finds it, when the checks before
    it left the resource as [r]. *)
Definition during_authentication (custom_auth : option Auth)
    (r : Resource) : Resource :=
  match custom_auth with
  | Some a => if auth_truthy a then with_authentication a r else r
  | None => r
  end.

End WithResource.

Arguments Normal {Response OtherExn A} a.
Arguments Return {Response OtherExn A} r.
Arguments Raise {Response OtherExn A} e.
Arguments ImmediateHttpResponse {Response OtherExn} response.
Arguments OtherException {Response OtherExn} e.

End AuthorizeApi.

(** ** [ModelResourceUtils.get_fields] *)

Module ResourceFields.
Import Py.

Section WithFields.
(** Framework types: a callable given as [use_in], the other attributes
    of an API field, and the [fields] and [excludes] arguments. *)
Variables (Callable Attrs Fields Excludes : Type).

(** [field.use_in] is a string (['all'], ['list'], ['detail']) or a
    callable. *)
Inductive use_in_value : Type :=
| UseInStr (s : string)
| UseInCallable (c : Callable).

Record ApiField : Type := mkApiField {
  use_in : use_in_value;
  attrs : Attrs
}.

(** Field objects are mutated in place; the dictionary that
    [get_fields] returns maps field names to them. *)
Definition field_store : Type := loc -> ApiField.

Definition set_use_in (u : use_in_value) (f : ApiField) : ApiField :=
  {| use_in := u; attrs := attrs f |}.

Definition field_store_set (l : loc) (f : ApiField) (st : field_store)
  : field_store :=
  fun l' => if Nat.eqb l' l then f else st l'.

(** [super(ModelResource, cls).get_fields(fields=fields,
    excludes=excludes)] *)
Variable super_get_fields :
  Fields -> Excludes -> field_store -> field_store * gmap string loc.

(** One turn of the loop over [final_fields]; [final_fields[field_name]]
    is the object stored under the name being visited. *)
Definition mark_detail (list_exclude_fields : list string)
    (st : field_store) (item : string * loc) : field_store :=
  let field_name := item.1 in
  if bool_decide (field_name ∈ list_exclude_fields) then
    field_store_set item.2
      (set_use_in (UseInStr "detail") (st item.2)) st
  else st.

(** [get_fields(cls, fields=None, excludes=None)], where
    [list_exclude_fields] is [getattr(cls._meta, 'list_exclude_fields',
    None)]. *)
Definition get_fields (list_exclude_fields : option (list string))
    (fields : Fields) (excludes : Excludes) (st : field_store)
  : field_store * gmap string loc :=
  let '(st1, final_fields) := super_get_fields fields excludes st in
  match list_exclude_fields with
  | Some (name :: names) =>
      (foldl (mark_detail (name :: names)) st1 (map_to_list final_fields),
       final_fields)
  | Some [] | None => (st1, final_fields)
  end.

End WithFields.

Arguments UseInStr {Callable} s.
Arguments UseInCallable {Callable} c.

End ResourceFields.

(** ** [ModelResourceUtils.get_filters] *)

Module ResourceFilters.
Import Py.

Section WithFramework.
(** Framework types: the query dictionary of [request.GET], the values of
    keyword arguments, and what [build_filters] produces. *)
Variables (QueryDict KV Built : Type).

(** The two kinds of dictionary the method handles. *)
Inductive dict_obj : Type :=
| PlainDict (d : gmap string KV)
| QDict (q : QueryDict).

(** [QueryDict.update(kwargs)] of the framework. *)
Variable qd_update : QueryDict -> gmap string KV -> QueryDict.

Variable remove_api_resource_names : gmap string KV -> gmap string KV.

Variable build_filters : loc -> MultipartResource.heap dict_obj -> Built.

Record HttpRequest : Type := mkHttpRequest {
  GET : option loc            (* [None]: the request has no [GET] *)
}.

(** A new object. *)
Definition alloc (o : dict_obj) (h : MultipartResource.heap dict_obj)
  : MultipartResource.heap dict_obj * loc :=
  ({| MultipartResource.next := S (MultipartResource.next _ h);
      MultipartResource.objs := fun l' =>
        if Nat.eqb l' (MultipartResource.next _ h) then o
        else MultipartResource.objs _ h l' |},
   MultipartResource.next _ h).

(** [d.update(kwargs)]: the keyword arguments win in a plain
    dictionary. *)
Definition obj_update (o : dict_obj) (kwargs : gmap string KV) : dict_obj :=
  match o with
  | PlainDict d => PlainDict (kwargs ∪ d)
  | QDict q => QDict (qd_update q kwargs)
  end.

(** [get_filters(self, request, **kwargs)] *)
Definition get_filters (request : HttpRequest) (kwargs : gmap string KV)
    (h : MultipartResource.heap dict_obj) : Built :=
  let '(h0, filters) := alloc (PlainDict ∅) h in
  let kwargs := remove_api_resource_names kwargs in
  let '(h1, filters) :=
    match GET request with
    | Some get => MultipartResource.copy _ get h0
    | None => (h0, filters)
    end in
  let h2 :=
    MultipartResource.heap_set _ filters
      (obj_update (MultipartResource.objs _ h1 filters) kwargs) h1 in
  build_filters filters h2.

End WithFramework.

Arguments PlainDict {QueryDict KV} d.
Arguments QDict {QueryDict KV} q.

End ResourceFilters.

(** ** Sample inputs *)

Module Samples.
Import Py ModelResourceUtils.

Definition sample_data : gmap string nat :=
  list_to_map [("id", 1); ("name", 2); ("email", 3); ("meta", 4)].

Definition sample_request (params : list (string * string)) : Request :=
  {| GET := list_to_map params |}.

Definition sample_store (params : list (string * string)) : store nat :=
  fun _ => {| request := sample_request params; data := sample_data |}.

(** A multipart upload and a framework that keeps dictionaries as
    association lists. *)
Definition sample_upload (content_type : string)
  : MultipartResource.HttpRequest (list (string * string)) :=
  {| MultipartResource.META := {[ "CONTENT_TYPE" := content_type ]};
     MultipartResource.POST := 0;
     MultipartResource.FILES := [("avatar", "me.png")];
     MultipartResource._body := None |}.

Definition sample_heap : MultipartResource.heap (list (string * string)) :=
  {| MultipartResource.next := 1;
     MultipartResource.objs := fun _ => [("name", "me")] |}.

Definition sample_super_deserialize
    (request : MultipartResource.HttpRequest (list (string * string)))
    (data : string) (format : string)
    (h : MultipartResource.heap (list (string * string)))
  : MultipartResource.heap (list (string * string)) *
    MultipartResource.result string
      (MultipartResource.value string) :=
  (h, MultipartResource.Ok (MultipartResource.Other (format +:+ data))).

Definition sample_super_detail
    (request : MultipartResource.HttpRequest (list (string * string)))
    (kwargs : list (string * string)) : option string :=
  MultipartResource._body _ request.

(** A resource that allows the listed methods, throttles after three
    requests and rejects the policy named [deny]. *)
Definition sample_resource (policy : string) (seen : nat)
  : AuthorizeApi.Resource string nat :=
  {| AuthorizeApi.authentication := policy; AuthorizeApi.world := seen |}.

Definition sample_method_check (request : string) (allowed : list string)
  : AuthorizeApi.hook string string string nat unit :=
  fun r =>
    if bool_decide (request ∈ allowed) then (r, inr tt)
    else (r, inl (AuthorizeApi.ImmediateHttpResponse "405")).

Definition sample_throttle_check (request : string)
  : AuthorizeApi.hook string string string nat unit :=
  fun r =>
    if Nat.ltb (AuthorizeApi.world _ _ r) 3 then
      ({| AuthorizeApi.authentication := AuthorizeApi.authentication _ _ r;
          AuthorizeApi.world := S (AuthorizeApi.world _ _ r) |}, inr tt)
    else (r, inl (AuthorizeApi.ImmediateHttpResponse "429")).

Definition sample_is_authenticated (request : string)
  : AuthorizeApi.hook string string string nat unit :=
  fun r =>
    if String.eqb (AuthorizeApi.authentication _ _ r) "deny" then
      (r, inl (AuthorizeApi.ImmediateHttpResponse "401"))
    else if String.eqb (AuthorizeApi.authentication _ _ r) "broken" then
      (r, inl (AuthorizeApi.OtherException "backend down"))
    else (r, inr tt).

Definition sample_view (request : string) (args : list string)
  : AuthorizeApi.hook string string string nat string :=
  fun r => (r, inr ("200 " +:+ request)).

Definition sample_state (policy : string) (seen : nat)
  : AuthorizeApi.state string (list string) string nat :=
  {| AuthorizeApi.resource := sample_resource policy seen;
     AuthorizeApi.calls := [] |}.

(** A resource with the fields [id] (object 0) and [email] (object 1),
    both shown everywhere. *)
Definition sample_fields : ResourceFields.field_store unit nat :=
  fun l => {| ResourceFields.use_in := ResourceFields.UseInStr "all";
              ResourceFields.attrs := l |}.

Definition sample_super_get_fields (fields excludes : list string)
    (st : ResourceFields.field_store unit nat)
  : ResourceFields.field_store unit nat * gmap string loc :=
  (st, {[ "id" := 0; "email" := 1 ]}).

(** A heap whose object 0 is the query dictionary of [request.GET]. *)
Definition sample_query_heap
  : MultipartResource.heap
      (ResourceFilters.dict_obj (list (string * string)) string) :=
  {| MultipartResource.next := 1;
     MultipartResource.objs := fun _ =>
       ResourceFilters.QDict [("limit", "20")] |}.

Definition sample_qd_update (q : list (string * string))
    (kwargs : gmap string string) : list (string * string) :=
  q ++ map_to_list kwargs.

(** What [build_filters] is given: the contents of [filters]. *)
Definition sample_build_filters (filters : loc)
    (h : MultipartResource.heap
           (ResourceFilters.dict_obj (list (string * string)) string))
  : ResourceFilters.dict_obj (list (string * string)) string :=
  MultipartResource.objs _ h filters.

End Samples.

(** * Properties of [ModelResourceUtils] *)

Module ModelResourceUtilsSpec.
Import Py ModelResourceUtils Samples.

(** *** [str.split] *)

Lemma split_not_nil sep s : split sep s ≠ [].
Proof.
  destruct s as [|c rest]; simpl; [done|].
  destruct (Ascii.eqb c sep); [done|].
  by destruct (split sep rest).
Qed.

Lemma split_free sep s : free_of sep s = true → split sep s = [s].
Proof.
  induction s as [|c rest IH]; simpl; [done|].
  intros [Hc Hrest]%andb_prop.
  apply negb_true_iff in Hc. rewrite Hc, (IH Hrest). done.
Qed.

Lemma split_app sep a b :
  free_of sep a = true →
  split sep (a +:+ String sep b) = a :: split sep b.
Proof.
  induction a as [|c rest IH]; simpl.
  - intros _. by rewrite Ascii.eqb_refl.
  - intros [Hc Hrest]%andb_prop.
    apply negb_true_iff in Hc. rewrite Hc, (IH Hrest). done.
Qed.

Example split_two : split comma "id,name" = ["id"; "name"].
Proof. reflexivity. Qed.

Example split_trailing : split comma "id," = ["id"; ""].
Proof. reflexivity. Qed.

Example split_empty : split comma "" = [""].
Proof. reflexivity. Qed.

Lemma str_truthy_true s : s ≠ "" → str_truthy s = true.
Proof. by destruct s. Qed.

(** *** The dictionary comprehension *)

Section Comprehension.
Context {V : Type}.
Implicit Types (d acc m : gmap string V) (keys : list string).

Lemma dict_comp_spec keys d acc :
  match dict_comp keys d acc with
  | Ok m =>
      (∀ k, k ∈ keys → is_Some (d !! k)) ∧
      (∀ k, m !! k = if decide (k ∈ keys) then d !! k else acc !! k)
  | Raise (KeyError k) => k ∈ keys ∧ d !! k = None
  end.
Proof.
  revert acc. induction keys as [|k keys IH]; intros acc; cbn [dict_comp].
  - split; [by intros k ?%elem_of_nil|].
    intros k. by destruct (decide (k ∈ [])) as [?%elem_of_nil|].
  - destruct (d !! k) as [v|] eqn:Hk; [|split; [left|done]].
    specialize (IH (<[k:=v]> acc)).
    destruct (dict_comp keys d (<[k:=v]> acc)) as [m|[k']].
    + destruct IH as [Hall Hm]. split.
      * intros j [->|Hj]%elem_of_cons; [by rewrite Hk|by apply Hall].
      * intros j. rewrite Hm.
        destruct (decide (j ∈ keys)) as [Hj|Hj].
        { rewrite decide_True; [done|by right]. }
        destruct (decide (j = k)) as [->|Hne].
        { rewrite decide_True by left. by rewrite lookup_insert_eq. }
        rewrite decide_False, lookup_insert_ne; [done|done|].
        by intros [?|?]%elem_of_cons.
    + destruct IH as [Hin Hnone]. split; [by right|done].
Qed.

Lemma dict_comp_ok keys d :
  (∀ k, k ∈ keys → is_Some (d !! k)) →
  ∃ m, dict_comp keys d ∅ = Ok m ∧
       ∀ k, m !! k = if decide (k ∈ keys) then d !! k else None.
Proof.
  intros Hall. pose proof (dict_comp_spec keys d ∅) as Hspec.
  destruct (dict_comp keys d ∅) as [m|[k]].
  - exists m. split; [done|]. intros k. destruct Hspec as [_ ->].
    by rewrite lookup_empty.
  - destruct Hspec as [Hin Hnone].
    destruct (Hall k Hin) as [v Hv]. congruence.
Qed.

Lemma dict_comp_missing keys d k :
  k ∈ keys → d !! k = None →
  ∃ k', dict_comp keys d ∅ = Raise (KeyError k') ∧
        k' ∈ keys ∧ d !! k' = None.
Proof.
  intros Hin Hnone. pose proof (dict_comp_spec keys d ∅) as Hspec.
  destruct (dict_comp keys d ∅) as [m|[k']].
  - destruct Hspec as [Hall _]. destruct (Hall k Hin) as [v Hv]. congruence.
  - by exists k'.
Qed.

(** Iterating over [set(d.keys()).difference(excluded)] cannot raise. *)
Lemma dict_comp_difference d (excluded : gset string) :
  ∃ m, dict_comp (elements (dom d ∖ excluded)) d ∅ = Ok m ∧
       ∀ k, m !! k = if decide (k ∈ excluded) then None else d !! k.
Proof.
  destruct (dict_comp_ok (elements (dom d ∖ excluded)) d) as (m & Hm & Hlk).
  - intros k [Hk _]%elem_of_elements%elem_of_difference.
    by apply elem_of_dom.
  - exists m. split; [done|]. intros k. rewrite Hlk.
    destruct (decide (k ∈ excluded)) as [Hx|Hx].
    + rewrite decide_False; [done|].
      intros [_ ?]%elem_of_elements%elem_of_difference. done.
    + destruct (d !! k) as [v|] eqn:Hk.
      * rewrite decide_True; [done|].
        apply elem_of_elements, elem_of_difference. split; [|done].
        apply elem_of_dom. by rewrite Hk.
      * by destruct (decide _).
Qed.

End Comprehension.

(** *** [dehydrate] *)

Section Dehydrate.
Context {V : Type}.
Implicit Types (st : store V) (bundle : loc) (d : gmap string V).

Lemma store_set_same st bundle (b : Bundle V) :
  store_set bundle b st bundle = b.
Proof. unfold store_set. by rewrite Nat.eqb_refl. Qed.

(** With a usable [include_fields] the comprehension runs over its
    pieces; [exclude_fields] is not looked at. *)
Lemma dehydrate_include st bundle s :
  GET (request (st bundle)) !! "include_fields" = Some s → s ≠ "" →
  dehydrate bundle st =
    match dict_comp (split comma s) (data (st bundle)) ∅ with
    | Raise e => (st, Raise e)
    | Ok d => (store_set bundle (set_data d (st bundle)) st, Ok bundle)
    end.
Proof.
  intros Hinc Hs. unfold dehydrate. rewrite Hinc. cbn [truthy].
  rewrite (str_truthy_true s Hs). by rewrite andb_false_r.
Qed.

(** Without one, a usable [exclude_fields] selects the remaining keys. *)
Lemma dehydrate_exclude st bundle s :
  truthy (GET (request (st bundle)) !! "include_fields") = false →
  GET (request (st bundle)) !! "exclude_fields" = Some s → s ≠ "" →
  ∃ d, dehydrate bundle st =
         (store_set bundle (set_data d (st bundle)) st, Ok bundle) ∧
       ∀ k, d !! k = if decide (k ∈ split comma s) then None
                     else data (st bundle) !! k.
Proof.
  intros Hinc Hexc Hs. unfold dehydrate. rewrite Hinc, Hexc. cbn [truthy].
  rewrite (str_truthy_true s Hs). cbn [negb andb default from_option id].
  destruct (dict_comp_difference (data (st bundle))
              (list_to_set (split comma s))) as (d & -> & Hd).
  exists d. split; [done|]. intros k. rewrite Hd.
  destruct (decide (k ∈ split comma s)) as [Hk|Hk].
  - rewrite decide_True; [done|]. by apply elem_of_list_to_set.
  - rewrite decide_False; [done|]. by rewrite elem_of_list_to_set.
Qed.

Lemma store_set_elsewhere st bundle (b : Bundle V) l :
  l ≠ bundle → store_set bundle b st l = st l.
Proof.
  intros Hl. unfold store_set. apply Nat.eqb_neq in Hl. by rewrite Hl.
Qed.

(** C1: when the request carries [include_fields=a,b] (two comma-free
    field names) and [bundle.data] has both keys, [dehydrate] returns the
    bundle it was given, and afterwards the keys of [bundle.data] are
    exactly [a] and [b], each with its original value; the bundle keeps
    its request and no other bundle changes. *)
Theorem dehydrate_include_fields_pair st bundle (a b : string) (va vb : V) :
  free_of comma a = true →
  free_of comma b = true →
  GET (request (st bundle)) !! "include_fields" = Some (a +:+ ("," +:+ b)) →
  data (st bundle) !! a = Some va →
  data (st bundle) !! b = Some vb →
  ∃ st', dehydrate bundle st = (st', Ok bundle) ∧
         dom (data (st' bundle)) = {[a; b]} ∧
         data (st' bundle) !! a = Some va ∧
         data (st' bundle) !! b = Some vb ∧
         request (st' bundle) = request (st bundle) ∧
         ∀ l, l ≠ bundle → st' l = st l.
Proof.
  intros Hfa Hfb Hinc Ha Hb.
  rewrite (dehydrate_include st bundle _ Hinc) by (by destruct a).
  change ("," +:+ b) with (String comma b).
  rewrite (split_app comma a b Hfa), (split_free comma b Hfb).
  cbn [dict_comp]. rewrite Ha, Hb.
  eexists. split; [reflexivity|].
  rewrite store_set_same. cbn [data request set_data].
  split; [|split; [|split; [|split]]].
  - apply set_eq. intros k.
    rewrite !dom_insert_L, dom_empty_L, !elem_of_union, !elem_of_singleton,
      elem_of_empty.
    tauto.
  - destruct (decide (a = b)) as [->|Hne].
    + rewrite lookup_insert_eq. congruence.
    + by rewrite lookup_insert_ne, lookup_insert_eq.
  - by rewrite lookup_insert_eq.
  - done.
  - intros l Hl. by apply store_set_elsewhere.
Qed.

Lemma delete_lookup_list d (a : string) :
  ∀ d', (∀ k, d' !! k = if decide (k ∈ [a]) then None else d !! k) →
        d' = delete a d.
Proof.
  intros d' Hd'. apply map_eq. intros k. rewrite Hd'.
  destruct (decide (k = a)) as [->|Hne].
  - rewrite decide_True by left. by rewrite lookup_delete_eq.
  - rewrite decide_False by (by intros ?%list_elem_of_singleton).
    by rewrite lookup_delete_ne.
Qed.

(** C2: when the request carries [exclude_fields=a] (one non-empty,
    comma-free field name) and no [include_fields], [dehydrate] returns
    the bundle it was given, and afterwards [bundle.data] is the original
    dictionary without the key [a]; the bundle keeps its request and no
    other bundle changes. *)
Theorem dehydrate_exclude_field st bundle (a : string) :
  a ≠ "" →
  free_of comma a = true →
  GET (request (st bundle)) !! "include_fields" = None →
  GET (request (st bundle)) !! "exclude_fields" = Some a →
  ∃ st', dehydrate bundle st = (st', Ok bundle) ∧
         data (st' bundle) = delete a (data (st bundle)) ∧
         dom (data (st' bundle)) = dom (data (st bundle)) ∖ {[a]} ∧
         request (st' bundle) = request (st bundle) ∧
         ∀ l, l ≠ bundle → st' l = st l.
Proof.
  intros Ha Hfree Hinc Hexc.
  destruct (dehydrate_exclude st bundle a) as (d & -> & Hd);
    [by rewrite Hinc|done|done|].
  rewrite (split_free comma a Hfree) in Hd.
  rewrite (delete_lookup_list _ a d Hd).
  eexists. split; [reflexivity|].
  rewrite store_set_same. cbn [data request set_data].
  split; [done|]. split; [by rewrite dom_delete_L|]. split; [done|].
  intros l Hl. by apply store_set_elsewhere.
Qed.

(** An empty parameter counts as no parameter at all. *)
Remark dehydrate_empty_parameters st bundle :
  truthy (GET (request (st bundle)) !! "include_fields") = false →
  truthy (GET (request (st bundle)) !! "exclude_fields") = false →
  dehydrate bundle st = (st, Ok bundle).
Proof. intros Hinc Hexc. unfold dehydrate. by rewrite Hinc, Hexc. Qed.

(** C5: whenever [dehydrate] returns, it returns the bundle it was given,
    and every key of the resulting data is a key of the original data with
    the original value; names in [exclude_fields] that are not keys are
    dropped by the set difference without any check, so that path always
    returns. *)
Theorem dehydrate_keys_subset st bundle :
  (∀ st' l, dehydrate bundle st = (st', Ok l) →
     l = bundle ∧
     dom (data (st' bundle)) ⊆ dom (data (st bundle)) ∧
     ∀ k v, data (st' bundle) !! k = Some v →
            data (st bundle) !! k = Some v) ∧
  (∀ s, truthy (GET (request (st bundle)) !! "include_fields") = false →
        GET (request (st bundle)) !! "exclude_fields" = Some s → s ≠ "" →
        ∃ d, dehydrate bundle st =
               (store_set bundle (set_data d (st bundle)) st, Ok bundle) ∧
             dom d = dom (data (st bundle)) ∖ list_to_set (split comma s)).
Proof.
  split.
  - intros st' l. unfold dehydrate.
    destruct (negb _ && negb _).
    { intros [= <- <-]. by split; [|split]. }
    match goal with
    | |- context [dict_comp ?ks ?d ∅] =>
        pose proof (dict_comp_spec ks d ∅) as Hspec;
        destruct (dict_comp ks d ∅) as [m|e]
    end; [|done].
    intros [= <- <-]. rewrite store_set_same. cbn [set_data data].
    destruct Hspec as [_ Hm].
    assert (∀ k v, m !! k = Some v → data (st bundle) !! k = Some v) as Hsub.
    { intros k v. rewrite Hm, lookup_empty. by destruct (decide _). }
    split; [done|]. split; [|done].
    intros k [v Hv]%elem_of_dom. apply elem_of_dom. eauto.
  - intros s Hinc Hexc Hs.
    destruct (dehydrate_exclude st bundle s Hinc Hexc Hs) as (d & Hd & Hlk).
    exists d. split; [done|]. apply set_eq. intros k.
    rewrite elem_of_difference, !elem_of_dom, elem_of_list_to_set, Hlk.
    destruct (decide (k ∈ split comma s)); [|tauto].
    split; [by intros [? ?]|tauto].
Qed.

(** C10: a non-empty [include_fields] naming a field that is not a key of
    [bundle.data] makes [dehydrate] raise [KeyError] for such a field,
    leaving the bundle as it was; and there is such an input. *)
Theorem dehydrate_include_missing_raises :
  (∃ st bundle k, dehydrate bundle st = (st, Raise (KeyError k))) ∧
  (∀ st bundle s k,
     GET (request (st bundle)) !! "include_fields" = Some s → s ≠ "" →
     k ∈ split comma s → data (st bundle) !! k = None →
     ∃ k', dehydrate bundle st = (st, Raise (KeyError k')) ∧
           k' ∈ split comma s ∧ data (st bundle) !! k' = None).
Proof.
  assert (∀ st bundle s k,
     GET (request (st bundle)) !! "include_fields" = Some s → s ≠ "" →
     k ∈ split comma s → data (st bundle) !! k = None →
     ∃ k', dehydrate bundle st = (st, Raise (KeyError k')) ∧
           k' ∈ split comma s ∧ data (st bundle) !! k' = None) as Hall.
  { intros st bundle s k Hinc Hs Hin Hnone.
    rewrite (dehydrate_include st bundle s Hinc Hs).
    destruct (dict_comp_missing _ _ k Hin Hnone) as (k' & -> & ? & ?).
    by exists k'. }
  split; [|exact Hall].
  set (st := fun _ : loc =>
    {| request := {| GET := {[ "include_fields" := "a" ]} |};
       data := (∅ : gmap string V) |}).
  destruct (Hall st 0 "a" "a") as (k' & Hk' & _); try done.
  - by left.
  - by exists st, 0, k'.
Qed.

(** *** [alter_list_data_to_serialize] *)

(** C8: with [meta_only=1] a list response that has a [meta] entry is cut
    down to that entry alone; without [meta_only] it is returned as it
    is. *)
Theorem alter_list_data_meta_only (req : Request) (data : gmap string V) :
  (∀ m, GET req !! "meta_only" = Some "1" → data !! "meta" = Some m →
        alter_list_data_to_serialize req data = Ok {[ "meta" := m ]}) ∧
  (GET req !! "meta_only" = None →
   alter_list_data_to_serialize req data = Ok data).
Proof.
  unfold alter_list_data_to_serialize. split.
  - intros m -> ->. done.
  - intros ->. done.
Qed.

(** C9: a request with neither [include_fields] nor [exclude_fields]
    leaves the store untouched and gets its own bundle back; a request
    without [meta_only] gets the list data back unchanged. *)
Theorem shaping_default_identity st bundle (req : Request)
    (data : gmap string V) :
  (GET (request (st bundle)) !! "include_fields" = None →
   GET (request (st bundle)) !! "exclude_fields" = None →
   dehydrate bundle st = (st, Ok bundle)) ∧
  (GET req !! "meta_only" = None →
   alter_list_data_to_serialize req data = Ok data).
Proof.
  split.
  - intros Hinc Hexc. unfold dehydrate. by rewrite Hinc, Hexc.
  - intros Hmeta. unfold alter_list_data_to_serialize. by rewrite Hmeta.
Qed.

End Dehydrate.

(** *** The statements at concrete requests *)

Lemma dehydrate_include_fields_pair_witness :
  ∃ st', dehydrate 0 (sample_store [("include_fields", "id,name")]) =
           (st', Ok 0) ∧
         dom (data (st' 0)) = {["id"; "name"]} ∧
         data (st' 0) !! "id" = Some 1 ∧
         data (st' 0) !! "name" = Some 2 ∧
         request (st' 0) = sample_request [("include_fields", "id,name")] ∧
         ∀ l, l ≠ 0 → st' l = sample_store [("include_fields", "id,name")] l.
Proof.
  apply (dehydrate_include_fields_pair
           (sample_store [("include_fields", "id,name")]) 0 "id" "name" 1 2);
    vm_compute; reflexivity.
Defined.

Lemma dehydrate_exclude_field_witness :
  ∃ st', dehydrate 0 (sample_store [("exclude_fields", "email")]) =
           (st', Ok 0) ∧
         data (st' 0) = delete "email" sample_data ∧
         dom (data (st' 0)) = dom sample_data ∖ {["email"]} ∧
         request (st' 0) = sample_request [("exclude_fields", "email")] ∧
         ∀ l, l ≠ 0 → st' l = sample_store [("exclude_fields", "email")] l.
Proof.
  apply (dehydrate_exclude_field
           (sample_store [("exclude_fields", "email")]) 0 "email").
  - discriminate.
  - vm_compute; reflexivity.
  - vm_compute; reflexivity.
  - vm_compute; reflexivity.
Defined.

Lemma dehydrate_keys_subset_witness :
  dom (data ((dehydrate 0 (sample_store [("include_fields", "id")])).1 0)) ⊆
    dom sample_data ∧
  ∃ d, dehydrate 0 (sample_store [("exclude_fields", "email,phone")]) =
         (store_set 0
            (set_data d (sample_store [("exclude_fields", "email,phone")] 0))
            (sample_store [("exclude_fields", "email,phone")]),
          Ok 0) ∧
       dom d = dom sample_data ∖ list_to_set (split comma "email,phone").
Proof.
  split.
  - apply (proj1 (dehydrate_keys_subset
                    (sample_store [("include_fields", "id")]) 0)
             (dehydrate 0 (sample_store [("include_fields", "id")])).1 0).
    vm_compute; reflexivity.
  - apply (proj2 (dehydrate_keys_subset
                    (sample_store [("exclude_fields", "email,phone")]) 0)).
    + vm_compute; reflexivity.
    + vm_compute; reflexivity.
    + discriminate.
Defined.

Lemma dehydrate_include_missing_raises_witness :
  ∃ k', dehydrate 0 (sample_store [("include_fields", "id,phone")]) =
          (sample_store [("include_fields", "id,phone")], Raise (KeyError k')) ∧
        k' ∈ split comma "id,phone" ∧ sample_data !! k' = None.
Proof.
  apply (proj2 (@dehydrate_include_missing_raises nat)
           (sample_store [("include_fields", "id,phone")]) 0 "id,phone"
           "phone").
  - vm_compute; reflexivity.
  - discriminate.
  - right; left.
  - vm_compute; reflexivity.
Defined.

Lemma alter_list_data_meta_only_witness :
  alter_list_data_to_serialize (sample_request [("meta_only", "1")])
    sample_data = Ok {[ "meta" := 4 ]} ∧
  alter_list_data_to_serialize (sample_request []) sample_data =
    Ok sample_data.
Proof.
  split.
  - apply (proj1 (alter_list_data_meta_only
                    (sample_request [("meta_only", "1")]) sample_data));
      vm_compute; reflexivity.
  - apply (proj2 (alter_list_data_meta_only (sample_request []) sample_data)).
    vm_compute; reflexivity.
Defined.

Lemma shaping_default_identity_witness :
  dehydrate 0 (sample_store [("limit", "20")]) =
    (sample_store [("limit", "20")], Ok 0) ∧
  alter_list_data_to_serialize (sample_request [("limit", "20")])
    sample_data = Ok sample_data.
Proof.
  split.
  - apply (proj1 (shaping_default_identity
                    (sample_store [("limit", "20")]) 0
                    (sample_request [("limit", "20")]) sample_data));
      vm_compute; reflexivity.
  - apply (proj2 (shaping_default_identity
                    (sample_store [("limit", "20")]) 0
                    (sample_request [("limit", "20")]) sample_data)).
    vm_compute; reflexivity.
Defined.

End ModelResourceUtilsSpec.

(** * Properties of [MultipartResource] *)

Module MultipartResourceSpec.
Import Py MultipartResource Samples.

Section WithFramework.
Variables (QueryDict Data Parsed Kwargs Exn DetailOutcome : Type).
Variable update : QueryDict -> QueryDict -> QueryDict.
Variable super_deserialize :
  HttpRequest QueryDict -> Data -> string -> heap QueryDict ->
  heap QueryDict * result Exn (value Parsed).
Variables super_put_detail super_patch_detail :
  HttpRequest QueryDict -> Kwargs -> DetailOutcome.

Abbreviation deserialize := (deserialize _ _ _ _ update super_deserialize).
Abbreviation put_detail := (put_detail _ _ _ super_put_detail).
Abbreviation patch_detail := (patch_detail _ _ _ super_patch_detail).

(** The format the method decides on: the argument when it is a non-empty
    string, else the [CONTENT_TYPE] header, else [application/json]. *)
Lemma deserialize_format_cases (request : HttpRequest QueryDict)
    (format : option string) :
  (if negb (truthy format)
   then default "application/json" (META _ request !! "CONTENT_TYPE")
   else default "" format) =
  match format with
  | Some (String c f) => String c f
  | _ => default "application/json" (META _ request !! "CONTENT_TYPE")
  end.
Proof. by destruct format as [[|c f]|]. Qed.

(** C7: with [fmt] the format argument, or the request's [CONTENT_TYPE]
    when none is given, or [application/json] when that is absent too:
    [application/x-www-form-urlencoded] returns [request.POST] itself and
    touches nothing; a format starting with [multipart/form-data] returns a
    newly allocated dictionary holding [request.POST] updated with
    [request.FILES], every older object being left as it was; any other
    format is handed, with the request and the data, to the superclass. *)
Theorem deserialize_content_types (request : HttpRequest QueryDict)
    (data : Data) (format : option string) (h : heap QueryDict) :
  let fmt :=
    match format with
    | Some (String c f) => String c f
    | _ => default "application/json" (META _ request !! "CONTENT_TYPE")
    end in
  (fmt = "application/x-www-form-urlencoded" →
   deserialize request data format h = (h, Ok (Ref (POST _ request)))) ∧
  (startswith fmt "multipart/form-data" = true →
   ∃ h', deserialize request data format h = (h', Ok (Ref (next _ h))) ∧
         next _ h' = S (next _ h) ∧
         objs _ h' (next _ h) =
           update (objs _ h (POST _ request)) (FILES _ request) ∧
         ∀ l, l ≠ next _ h → objs _ h' l = objs _ h l) ∧
  (fmt ≠ "application/x-www-form-urlencoded" →
   startswith fmt "multipart/form-data" = false →
   deserialize request data format h =
     super_deserialize request data fmt h).
Proof.
  intros fmt. unfold MultipartResource.deserialize.
  rewrite deserialize_format_cases. fold fmt.
  split; [|split].
  - intros ->. done.
  - intros Hmulti.
    destruct (String.eqb fmt "application/x-www-form-urlencoded") eqn:Heq.
    { apply String.eqb_eq in Heq. rewrite Heq in Hmulti. discriminate. }
    rewrite Hmulti. cbn [copy].
    eexists. split; [reflexivity|].
    unfold update_in_place, heap_set. cbn [next objs].
    rewrite Nat.eqb_refl. split; [done|]. split; [done|].
    intros l Hl. apply Nat.eqb_neq in Hl. by rewrite Hl.
  - intros Hne Hmulti. apply String.eqb_neq in Hne. by rewrite Hne, Hmulti.
Qed.

(** C6: for a request whose [CONTENT_TYPE] starts with
    [multipart/form-data] and which has no [_body] attribute, [put_detail]
    and [patch_detail] reach the superclass method, whatever that method
    is, and the request it receives has [_body] equal to the empty string
    and [META], [POST] and [FILES] as they were. *)
Theorem multipart_detail_delegates (request : HttpRequest QueryDict)
    (kwargs : Kwargs) (content_type : string) :
  META _ request !! "CONTENT_TYPE" = Some content_type →
  startswith content_type "multipart/form-data" = true →
  _body _ request = None →
  ∃ request',
    put_detail request kwargs = super_put_detail request' kwargs ∧
    patch_detail request kwargs = super_patch_detail request' kwargs ∧
    _body _ request' = Some "" ∧
    META _ request' = META _ request ∧
    POST _ request' = POST _ request ∧
    FILES _ request' = FILES _ request.
Proof.
  intros Hct Hmulti Hbody.
  unfold MultipartResource.put_detail, MultipartResource.patch_detail,
    ensure_body, hasattr_body.
  rewrite Hct, Hbody. cbn [default from_option id]. rewrite Hmulti.
  cbn [andb negb]. eexists. split; [reflexivity|]. split; [reflexivity|].
  done.
Qed.

End WithFramework.

Lemma deserialize_content_types_witness :
  deserialize _ _ _ _ app sample_super_deserialize
    (sample_upload "application/x-www-form-urlencoded") "" None sample_heap =
    (sample_heap, Ok (Ref 0)) ∧
  (∃ h', deserialize _ _ _ _ app sample_super_deserialize
           (sample_upload "multipart/form-data; boundary=x") "" None
           sample_heap = (h', Ok (Ref 1)) ∧
         next _ h' = 2 ∧
         objs _ h' 1 = [("name", "me"); ("avatar", "me.png")] ∧
         ∀ l, l ≠ 1 → objs _ h' l = [("name", "me")]) ∧
  deserialize _ _ _ _ app sample_super_deserialize
    (sample_upload "text/xml") "<a/>" None sample_heap =
    (sample_heap, Ok (Other "text/xml<a/>")).
Proof.
  split; [|split].
  - apply (deserialize_content_types _ _ _ _ app sample_super_deserialize
             (sample_upload "application/x-www-form-urlencoded") "" None
             sample_heap).
    vm_compute; reflexivity.
  - apply (deserialize_content_types _ _ _ _ app sample_super_deserialize
             (sample_upload "multipart/form-data; boundary=x") "" None
             sample_heap).
    vm_compute; reflexivity.
  - apply (deserialize_content_types _ _ _ _ app sample_super_deserialize
             (sample_upload "text/xml") "<a/>" None sample_heap).
    + vm_compute; discriminate.
    + vm_compute; reflexivity.
Defined.

Lemma multipart_detail_delegates_witness :
  ∃ request',
    put_detail _ _ _ sample_super_detail
      (sample_upload "multipart/form-data; boundary=x") [] =
      sample_super_detail request' [] ∧
    patch_detail _ _ _ sample_super_detail
      (sample_upload "multipart/form-data; boundary=x") [] =
      sample_super_detail request' [] ∧
    _body _ request' = Some "" ∧
    META _ request' = {[ "CONTENT_TYPE" := "multipart/form-data; boundary=x" ]} ∧
    POST _ request' = 0 ∧
    FILES _ request' = [("avatar", "me.png")].
Proof.
  apply (multipart_detail_delegates _ _ _ sample_super_detail
           sample_super_detail
           (sample_upload "multipart/form-data; boundary=x") []
           "multipart/form-data; boundary=x");
    vm_compute; reflexivity.
Defined.

End MultipartResourceSpec.

(** * Properties of [authorize_api] *)

Module AuthorizeApiSpec.
Import AuthorizeApi Samples.
Local Open Scope list_scope.

Section WithResource.
Variables (HttpRequest Args Response Auth OtherExn World : Type).
Variable method_check :
  HttpRequest -> list string -> hook Response Auth OtherExn World unit.
Variable throttle_check :
  HttpRequest -> hook Response Auth OtherExn World unit.
Variable is_authenticated :
  HttpRequest -> hook Response Auth OtherExn World unit.
Variable view_func :
  HttpRequest -> Args -> hook Response Auth OtherExn World Response.
Variable auth_truthy : Auth -> bool.

Abbreviation wrapped_view :=
  (_wrapped_view _ _ _ _ _ _ method_check throttle_check is_authenticated
     view_func auth_truthy).
Abbreviation during := (during_authentication _ _ auth_truthy).
Abbreviation restored := (with_authentication Auth World).

Implicit Types (s : state HttpRequest Args Auth World)
  (r : Resource Auth World).

Ltac step_view :=
  unfold _wrapped_view, mbind, mret, M_bind, M_ret, bind, ret, invoke,
    try_except_finally, get_authentication, set_authentication, return_.

(** Installing the substitute policy is one store to the resource. *)
Lemma install_custom_auth (custom_auth : option Auth) s :
  match custom_auth with
  | Some a => if auth_truthy a
              then set_authentication HttpRequest Args Response _ OtherExn _ a
              else ret _ _ _ _ _ _ tt
  | None => ret _ _ _ _ _ _ tt
  end s =
  ({| resource := during custom_auth (resource _ _ _ _ s);
      calls := calls _ _ _ _ s |}, Normal tt).
Proof.
  step_view. unfold during_authentication.
  destruct custom_auth as [a|]; [destruct (auth_truthy a)|]; by destruct s.
Qed.

Abbreviation after s r cs :=
  {| resource := r; calls := calls HttpRequest Args Auth World s ++ cs |}.

Section Run.
Variables (allowed : list string) (custom_auth : option Auth)
  (request : HttpRequest) (args : Args).

Abbreviation mc := (MethodCheck HttpRequest Args request allowed).
Abbreviation tc := (ThrottleCheck HttpRequest Args request).
Abbreviation ia := (IsAuthenticated HttpRequest Args request).
Abbreviation vf := (ViewFunc HttpRequest Args request args).
Abbreviation run := (wrapped_view allowed custom_auth request args).

Lemma run_method_check_raises s r1 e :
  method_check request allowed (resource _ _ _ _ s) = (r1, inl e) →
  run s = (after s r1 [mc], Raise e).
Proof. intros Hmc. step_view. by rewrite Hmc. Qed.

Lemma run_throttle_check_raises s r1 r2 e :
  method_check request allowed (resource _ _ _ _ s) = (r1, inr tt) →
  throttle_check request r1 = (r2, inl e) →
  run s = (after s r2 [mc; tc], Raise e).
Proof.
  intros Hmc Htc. step_view. rewrite Hmc. cbn [resource calls].
  rewrite Htc. by rewrite <- app_assoc.
Qed.

Lemma run_is_authenticated s r1 r2 r3 o :
  method_check request allowed (resource _ _ _ _ s) = (r1, inr tt) →
  throttle_check request r1 = (r2, inr tt) →
  is_authenticated request (during custom_auth r2) = (r3, o) →
  run s =
    match o with
    | inl (ImmediateHttpResponse response) =>
        (after s (restored (authentication _ _ r2) r3) [mc; tc; ia],
         Return response)
    | inl (OtherException e) =>
        (after s (restored (authentication _ _ r2) r3) [mc; tc; ia],
         Raise (OtherException e))
    | inr _ =>
        match view_func request args (restored (authentication _ _ r2) r3)
        with
        | (r4, inl e) => (after s r4 [mc; tc; ia; vf], Raise e)
        | (r4, inr response) =>
            (after s r4 [mc; tc; ia; vf], Return response)
        end
    end.
Proof.
  intros Hmc Htc Hia.
  assert (∀ k : unit → M HttpRequest Args Response Auth OtherExn World unit,
    (invoke _ _ _ _ _ _ mc (method_check request allowed) ≫= λ _,
     invoke _ _ _ _ _ _ tc (throttle_check request) ≫= k) s =
    k tt (after s r2 [mc; tc])) as Hprefix.
  { intros k. step_view. rewrite Hmc. cbn [resource calls]. rewrite Htc.
    by rewrite <- app_assoc. }
  unfold _wrapped_view. rewrite Hprefix. clear Hprefix.
  unfold mbind at 1, M_bind at 1, bind at 1, get_authentication at 1.
  cbn [resource calls].
  unfold mbind at 1, M_bind at 1, bind at 1.
  rewrite install_custom_auth. cbn [resource calls].
  step_view. cbn [resource calls]. rewrite Hia.
  destruct o as [[response|e]|[]]; cbn [resource calls].
  - by rewrite <- app_assoc.
  - by rewrite <- app_assoc.
  - destruct (view_func request args _) as [r4 [e|response]];
      by rewrite <- !app_assoc.
Qed.

End Run.

(** C3: the wrapped view calls [method_check], [throttle_check],
    [is_authenticated] and the view in this order and stops at the first
    that raises.  An exception of either of the first two checks reaches
    the caller as it is; [ImmediateHttpResponse] raised by
    [is_authenticated] becomes the return of its response, and the view is
    not called; any other exception of [is_authenticated] reaches the
    caller; otherwise the view is called and its return value or its
    exception is the outcome. *)
Theorem wrapped_view_check_order (allowed : list string)
    (custom_auth : option Auth) (request : HttpRequest) (args : Args) s :
  let run :=
    _wrapped_view _ _ _ _ _ _ method_check throttle_check is_authenticated
      view_func auth_truthy allowed custom_auth request args in
  let mc := MethodCheck _ Args request allowed in
  let tc := ThrottleCheck _ Args request in
  let ia := IsAuthenticated _ Args request in
  let vf := ViewFunc _ _ request args in
  (∃ n, calls _ _ _ _ (run s).1 =
        calls _ _ _ _ s ++ take n (check_sequence _ _ allowed request args)) ∧
  (∀ r1 e,
     method_check request allowed (resource _ _ _ _ s) = (r1, inl e) →
     run s = (after s r1 [mc], Raise e)) ∧
  (∀ r1 r2 e,
     method_check request allowed (resource _ _ _ _ s) = (r1, inr tt) →
     throttle_check request r1 = (r2, inl e) →
     run s = (after s r2 [mc; tc], Raise e)) ∧
  (∀ r1 r2 r3 o,
     method_check request allowed (resource _ _ _ _ s) = (r1, inr tt) →
     throttle_check request r1 = (r2, inr tt) →
     is_authenticated request (during custom_auth r2) = (r3, o) →
     let r3' := restored (authentication _ _ r2) r3 in
     match o with
     | inl (ImmediateHttpResponse response) =>
         run s = (after s r3' [mc; tc; ia], Return response)
     | inl (OtherException e) =>
         run s = (after s r3' [mc; tc; ia], Raise (OtherException e))
     | inr _ =>
         ∀ r4 o',
           view_func request args r3' = (r4, o') →
           run s = (after s r4 [mc; tc; ia; vf],
                    match o' with
                    | inl e => Raise e
                    | inr response => Return response
                    end)
     end).
Proof.
  intros run mc tc ia vf. subst run mc tc ia vf.
  split; [|split; [|split]].
  - destruct (method_check request allowed (resource _ _ _ _ s))
      as [r1 [e|[]]] eqn:Hmc.
    { exists 1. by rewrite (run_method_check_raises _ _ _ _ _ _ _ Hmc). }
    destruct (throttle_check request r1) as [r2 [e|[]]] eqn:Htc.
    { exists 2.
      by rewrite (run_throttle_check_raises _ _ _ _ _ _ _ _ Hmc Htc). }
    destruct (is_authenticated request (during custom_auth r2))
      as [r3 o] eqn:Hia.
    rewrite (run_is_authenticated _ _ _ _ _ _ _ _ _ Hmc Htc Hia).
    destruct o as [[response|e]|[]]; [by exists 3|by exists 3|].
    destruct (view_func request args _) as [r4 [e|response]]; by exists 4.
  - intros r1 e. apply run_method_check_raises.
  - intros r1 r2 e. apply run_throttle_check_raises.
  - intros r1 r2 r3 o Hmc Htc Hia r3'. subst r3'.
    rewrite (run_is_authenticated _ _ _ _ _ _ _ _ _ Hmc Htc Hia).
    destruct o as [[response|e]|[]]; [done|done|].
    intros r4 o' ->. by destruct o'.
Qed.

(** C4: provided that [method_check], [throttle_check] and the view leave
    [resource._meta.authentication] alone, the policy after the wrapped
    view is the policy before it, whatever [custom_auth] is and however
    the call ends; [is_authenticated] is free to change it. *)
Theorem wrapped_view_restores_authentication :
  (∀ request allowed r,
     authentication _ _ (method_check request allowed r).1 =
     authentication _ _ r) →
  (∀ request r,
     authentication _ _ (throttle_check request r).1 =
     authentication _ _ r) →
  (∀ request args r,
     authentication _ _ (view_func request args r).1 =
     authentication _ _ r) →
  ∀ allowed custom_auth request args s,
    authentication _ _
      (resource _ _ _ _
         (_wrapped_view _ _ _ _ _ _ method_check throttle_check
            is_authenticated view_func auth_truthy
            allowed custom_auth request args s).1) =
    authentication _ _ (resource _ _ _ _ s).
Proof.
  intros Hmethod Hthrottle Hview allowed custom_auth request args s.
  pose proof (Hmethod request allowed (resource _ _ _ _ s)) as H1.
  destruct (method_check request allowed (resource _ _ _ _ s))
    as [r1 [e|[]]] eqn:Hmc; cbn [fst] in H1.
  { by rewrite (run_method_check_raises _ _ _ _ _ _ _ Hmc). }
  pose proof (Hthrottle request r1) as H2.
  destruct (throttle_check request r1) as [r2 [e|[]]] eqn:Htc; cbn [fst] in H2.
  { rewrite (run_throttle_check_raises _ _ _ _ _ _ _ _ Hmc Htc).
    cbn [fst resource]. congruence. }
  destruct (is_authenticated request (during custom_auth r2))
    as [r3 o] eqn:Hia.
  rewrite (run_is_authenticated _ _ _ _ _ _ _ _ _ Hmc Htc Hia).
  destruct o as [[response|e]|[]]; cbn [fst resource with_authentication
    authentication]; [congruence|congruence|].
  pose proof (Hview request args (restored (authentication _ _ r2) r3)) as H4.
  destruct (view_func request args _) as [r4 [e|response]];
    cbn [fst resource with_authentication authentication] in *; congruence.
Qed.

End WithResource.

(** *** The statements at a concrete resource *)

Abbreviation sample_wrapped_view :=
  (_wrapped_view _ _ _ _ _ _ sample_method_check sample_throttle_check
     sample_is_authenticated sample_view (fun _ : string => true)).

Lemma wrapped_view_check_order_witness :
  sample_wrapped_view ["GET"] None "POST" [] (sample_state "allow" 0) =
    ({| resource := sample_resource "allow" 0;
        calls := [MethodCheck _ _ "POST" ["GET"]] |},
     Raise (ImmediateHttpResponse "405")) ∧
  sample_wrapped_view ["GET"] None "GET" [] (sample_state "allow" 3) =
    ({| resource := sample_resource "allow" 3;
        calls := [MethodCheck _ _ "GET" ["GET"]; ThrottleCheck _ _ "GET"] |},
     Raise (ImmediateHttpResponse "429")) ∧
  sample_wrapped_view ["GET"] (Some "deny") "GET" [] (sample_state "allow" 0) =
    ({| resource := sample_resource "allow" 1;
        calls := [MethodCheck _ _ "GET" ["GET"]; ThrottleCheck _ _ "GET";
                  IsAuthenticated _ _ "GET"] |},
     Return "401") ∧
  sample_wrapped_view ["GET"] (Some "broken") "GET" []
      (sample_state "allow" 0) =
    ({| resource := sample_resource "allow" 1;
        calls := [MethodCheck _ _ "GET" ["GET"]; ThrottleCheck _ _ "GET";
                  IsAuthenticated _ _ "GET"] |},
     Raise (OtherException "backend down")) ∧
  sample_wrapped_view ["GET"] None "GET" [] (sample_state "allow" 0) =
    ({| resource := sample_resource "allow" 1;
        calls := [MethodCheck _ _ "GET" ["GET"]; ThrottleCheck _ _ "GET";
                  IsAuthenticated _ _ "GET"; ViewFunc _ _ "GET" []] |},
     Return "200 GET").
Proof.
  pose (order := wrapped_view_check_order _ _ _ _ _ _ sample_method_check
          sample_throttle_check sample_is_authenticated sample_view
          (fun _ : string => true) ["GET"]).
  split; [|split; [|split; [|split]]].
  - apply (proj1 (proj2
             (order None "POST" [] (sample_state "allow" 0)))
             (sample_resource "allow" 0)).
    vm_compute; reflexivity.
  - apply (proj1 (proj2 (proj2
             (order None "GET" [] (sample_state "allow" 3))))
             (sample_resource "allow" 3) (sample_resource "allow" 3)).
    + vm_compute; reflexivity.
    + vm_compute; reflexivity.
  - apply (proj2 (proj2 (proj2
             (order (Some "deny") "GET" [] (sample_state "allow" 0))))
             (sample_resource "allow" 0) (sample_resource "allow" 1)
             (sample_resource "deny" 1)
             (inl (ImmediateHttpResponse "401")));
      vm_compute; reflexivity.
  - apply (proj2 (proj2 (proj2
             (order (Some "broken") "GET" [] (sample_state "allow" 0))))
             (sample_resource "allow" 0) (sample_resource "allow" 1)
             (sample_resource "broken" 1)
             (inl (OtherException "backend down")));
      vm_compute; reflexivity.
  - apply (proj2 (proj2 (proj2
             (order None "GET" [] (sample_state "allow" 0))))
             (sample_resource "allow" 0) (sample_resource "allow" 1)
             (sample_resource "allow" 1) (inr tt)
             ltac:(vm_compute; reflexivity) ltac:(vm_compute; reflexivity)
             ltac:(vm_compute; reflexivity)
             (sample_resource "allow" 1) (inr "200 GET")).
    vm_compute; reflexivity.
Defined.

Lemma sample_method_check_frame request allowed r :
  AuthorizeApi.authentication _ _ (sample_method_check request allowed r).1 =
  AuthorizeApi.authentication _ _ r.
Proof.
  unfold sample_method_check. by destruct (bool_decide (request ∈ allowed)).
Defined.

Lemma sample_throttle_check_frame request r :
  AuthorizeApi.authentication _ _ (sample_throttle_check request r).1 =
  AuthorizeApi.authentication _ _ r.
Proof.
  unfold sample_throttle_check. by destruct (Nat.ltb _ 3).
Defined.

Lemma wrapped_view_restores_authentication_witness :
  authentication _ _
    (resource _ _ _ _
       (sample_wrapped_view ["GET"] (Some "deny") "GET" []
          (sample_state "allow" 0)).1) = "allow".
Proof.
  apply (wrapped_view_restores_authentication _ _ _ _ _ _
           sample_method_check sample_throttle_check sample_is_authenticated
           sample_view (fun _ : string => true)
           sample_method_check_frame sample_throttle_check_frame
           (fun _ _ _ => eq_refl)
           ["GET"] (Some "deny") "GET" [] (sample_state "allow" 0)).
Defined.

End AuthorizeApiSpec.

(** * Further properties of [dehydrate] and
      [alter_list_data_to_serialize] *)

Module ResponseShapingLaws.
Import Py ModelResourceUtils Samples ModelResourceUtilsSpec.
Local Open Scope list_scope.

Section Laws.
Context {V : Type}.
Implicit Types (st : store V) (bundle : loc) (d : gmap string V).

Lemma store_set_twice st bundle (b : Bundle V) l :
  store_set bundle b (store_set bundle b st) l = store_set bundle b st l.
Proof. unfold store_set. by destruct (Nat.eqb l bundle). Qed.

Lemma store_set_other st bundle (b : Bundle V) l :
  l ≠ bundle → store_set bundle b st l = st l.
Proof. intros Hl. unfold store_set. apply Nat.eqb_neq in Hl. by rewrite Hl. Qed.

Lemma truthy_Some (o : option string) :
  truthy o = true → ∃ s, o = Some s ∧ s ≠ "".
Proof.
  destruct o as [s|]; [|done]. intros Hs. exists s. split; [done|].
  by destruct s.
Qed.

(** The comprehension stops at the first key the dictionary lacks. *)
Lemma dict_comp_first_missing (pre post : list string) (k : string) d acc :
  (∀ j, j ∈ pre → is_Some (d !! j)) → d !! k = None →
  dict_comp (pre ++ k :: post) d acc = Raise (KeyError k).
Proof.
  revert acc. induction pre as [|j pre IH]; intros acc Hpre Hk; simpl.
  - by rewrite Hk.
  - destruct (Hpre j) as [v ->]; [left|]. apply IH; [|done].
    intros j' Hj'. apply Hpre. by right.
Qed.

(** X1: when every name listed in a non-empty [include_fields] is a key
    of [bundle.data], [dehydrate] returns the bundle it was given, and
    afterwards the keys of [bundle.data] are exactly the listed names,
    each with its original value, however many names there are and whether
    or not some are repeated. *)
Theorem dehydrate_include_all_present st bundle (s : string) :
  GET (request (st bundle)) !! "include_fields" = Some s → s ≠ "" →
  (∀ k, k ∈ split comma s → is_Some (data (st bundle) !! k)) →
  ∃ st', dehydrate bundle st = (st', Ok bundle) ∧
         dom (data (st' bundle)) = list_to_set (split comma s) ∧
         ∀ k, k ∈ split comma s →
              data (st' bundle) !! k = data (st bundle) !! k.
Proof.
  intros Hinc Hs Hall. rewrite (dehydrate_include st bundle s Hinc Hs).
  destruct (dict_comp_ok (split comma s) (data (st bundle)) Hall)
    as (d & -> & Hd).
  eexists. split; [reflexivity|].
  rewrite store_set_same. cbn [data set_data]. split.
  - apply set_eq. intros k.
    rewrite elem_of_dom, elem_of_list_to_set, Hd.
    destruct (decide (k ∈ split comma s)) as [Hk|Hk].
    + split; [done|]. intros _. by apply Hall.
    + split; [by intros [? ?]|done].
  - intros k Hk. rewrite Hd. by rewrite decide_True.
Qed.

(** X2: the [KeyError] of [dehydrate] names the first listed field that
    [bundle.data] lacks: when the pieces of [include_fields] are
    [pre ++ k :: post], every name of [pre] is a key and [k] is not, the
    call raises [KeyError k] and the bundle keeps its data. *)
Theorem dehydrate_raises_first_missing st bundle (s k : string)
    (pre post : list string) :
  GET (request (st bundle)) !! "include_fields" = Some s → s ≠ "" →
  split comma s = pre ++ k :: post →
  (∀ j, j ∈ pre → is_Some (data (st bundle) !! j)) →
  data (st bundle) !! k = None →
  dehydrate bundle st = (st, Raise (KeyError k)).
Proof.
  intros Hinc Hs Hsplit Hpre Hk.
  rewrite (dehydrate_include st bundle s Hinc Hs), Hsplit.
  by rewrite (dict_comp_first_missing pre post k _ ∅ Hpre Hk).
Qed.

(** X3: a non-empty [include_fields] takes precedence: two bundles with
    the same data and the same [include_fields] get the same outcome and
    the same resulting data, whatever their [exclude_fields] are. *)
Theorem dehydrate_include_ignores_exclude st1 st2 (b1 b2 : loc) (s : string) :
  GET (request (st1 b1)) !! "include_fields" = Some s →
  GET (request (st2 b2)) !! "include_fields" = Some s →
  s ≠ "" →
  data (st1 b1) = data (st2 b2) →
  data ((dehydrate b1 st1).1 b1) = data ((dehydrate b2 st2).1 b2) ∧
  ∀ e, (dehydrate b1 st1).2 = Raise e ↔ (dehydrate b2 st2).2 = Raise e.
Proof.
  intros H1 H2 Hs Hdata.
  rewrite (dehydrate_include st1 b1 s H1 Hs),
    (dehydrate_include st2 b2 s H2 Hs), Hdata.
  destruct (dict_comp (split comma s) (data (st2 b2)) ∅) as [d|e'];
    cbn [fst snd].
  - rewrite !store_set_same. split; [done|]. intros e. by split.
  - split; [done|]. intros e. by split.
Qed.

(** X4: [dehydrate] is idempotent: after a call that returned, a second
    call on the same bundle returns too and leaves every bundle as the
    first call left it. *)
Theorem dehydrate_idempotent st bundle st' (l : loc) :
  dehydrate bundle st = (st', Ok l) →
  ∃ st'', dehydrate bundle st' = (st'', Ok bundle) ∧ ∀ l', st'' l' = st' l'.
Proof.
  intros Hfirst.
  destruct (truthy (GET (request (st bundle)) !! "include_fields"))
    eqn:Hinc;
  [|destruct (truthy (GET (request (st bundle)) !! "exclude_fields"))
      eqn:Hexc].
  - apply truthy_Some in Hinc as (s & Hinc & Hs).
    rewrite (dehydrate_include st bundle s Hinc Hs) in Hfirst.
    pose proof (dict_comp_spec (split comma s) (data (st bundle)) ∅)
      as Hspec.
    destruct (dict_comp (split comma s) (data (st bundle)) ∅) as [d|e];
      [|done].
    destruct Hspec as [Hall Hd]. injection Hfirst as <- <-.
    rewrite dehydrate_include with (s := s);
      [|by rewrite store_set_same|done].
    rewrite store_set_same. cbn [data set_data].
    destruct (dict_comp_ok (split comma s) d) as (m & -> & Hm).
    { intros k Hk. rewrite Hd, decide_True by done. by apply Hall. }
    assert (m = d) as ->.
    { apply map_eq. intros k. rewrite Hm, (Hd k), lookup_empty.
      by destruct (decide (k ∈ split comma s)). }
    eexists. split; [reflexivity|]. intros l'. apply store_set_twice.
  - apply truthy_Some in Hexc as (s & Hexc & Hs).
    destruct (dehydrate_exclude st bundle s Hinc Hexc Hs) as (d & Heq & Hd).
    rewrite Heq in Hfirst. injection Hfirst as <- <-.
    destruct (dehydrate_exclude
                (store_set bundle (set_data d (st bundle)) st) bundle s)
      as (m & -> & Hm); [by rewrite store_set_same..|done|].
    rewrite store_set_same in Hm |- *. cbn [data set_data] in Hm.
    assert (m = d) as ->.
    { apply map_eq. intros k. rewrite Hm, (Hd k).
      by destruct (decide (k ∈ split comma s)). }
    eexists. split; [reflexivity|]. intros l'. apply store_set_twice.
  - rewrite (dehydrate_empty_parameters st bundle Hinc Hexc) in Hfirst.
    injection Hfirst as <- <-. exists st. split; [|done].
    by apply dehydrate_empty_parameters.
Qed.

(** X5: [dehydrate] assigns nothing but [bundle.data]: the bundle keeps
    its request, every other bundle is left alone, and when the call
    raises the bundle keeps its data as well. *)
Theorem dehydrate_only_replaces_data st bundle :
  request ((dehydrate bundle st).1 bundle) = request (st bundle) ∧
  (∀ l, l ≠ bundle → (dehydrate bundle st).1 l = st l) ∧
  (∀ e, (dehydrate bundle st).2 = Raise e →
        data ((dehydrate bundle st).1 bundle) = data (st bundle)).
Proof.
  unfold dehydrate. destruct (negb _ && negb _); [done|].
  match goal with
  | |- context [dict_comp ?ks ?d ∅] => destruct (dict_comp ks d ∅) as [m|e']
  end; cbn [fst snd]; [|done].
  rewrite store_set_same. split; [done|]. split; [|done].
  intros l Hl. by apply store_set_other.
Qed.

(** X6: [meta_only] is tested for truth, not for its value: any non-empty
    value, [0] and [false] included, cuts a list response that has a
    [meta] entry down to that entry, and an empty value leaves the
    response as it is. *)
Theorem meta_only_any_value (req : Request) (data : gmap string V)
    (v : string) :
  GET req !! "meta_only" = Some v →
  (v ≠ "" → ∀ m, data !! "meta" = Some m →
     alter_list_data_to_serialize req data = Ok {[ "meta" := m ]}) ∧
  (v = "" → alter_list_data_to_serialize req data = Ok data).
Proof.
  intros Hv. unfold alter_list_data_to_serialize. rewrite Hv. cbn [truthy].
  split.
  - intros Hne m ->. by rewrite (str_truthy_true v Hne).
  - by intros ->.
Qed.

(** X7: with a non-empty [meta_only], a response without a [meta] entry
    makes [alter_list_data_to_serialize] raise [KeyError('meta')]. *)
Theorem meta_only_without_meta_raises (req : Request)
    (data : gmap string V) (v : string) :
  GET req !! "meta_only" = Some v → v ≠ "" →
  data !! "meta" = None →
  alter_list_data_to_serialize req data = Raise (KeyError "meta").
Proof.
  intros Hv Hne Hmeta. unfold alter_list_data_to_serialize.
  rewrite Hv. cbn [truthy]. by rewrite (str_truthy_true v Hne), Hmeta.
Qed.

(** X14: excluding only names that are not keys of [bundle.data] keeps
    every entry: the call returns and the data is equal to what it was. *)
Theorem dehydrate_exclude_unknown st bundle (s : string) :
  truthy (GET (request (st bundle)) !! "include_fields") = false →
  GET (request (st bundle)) !! "exclude_fields" = Some s → s ≠ "" →
  (∀ k, k ∈ split comma s → data (st bundle) !! k = None) →
  ∃ st', dehydrate bundle st = (st', Ok bundle) ∧
         data (st' bundle) = data (st bundle).
Proof.
  intros Hinc Hexc Hs Hunknown.
  destruct (dehydrate_exclude st bundle s Hinc Hexc Hs) as (d & -> & Hd).
  eexists. split; [reflexivity|].
  rewrite store_set_same. cbn [data set_data].
  apply map_eq. intros k. rewrite Hd.
  destruct (decide (k ∈ split comma s)) as [Hk|Hk]; [|done].
  by rewrite Hunknown.
Qed.

End Laws.

(** *** The statements at concrete requests *)

Ltac listed_key H :=
  repeat (apply elem_of_cons in H as [->|H]);
  [..|by apply elem_of_nil in H]; eexists; vm_compute; reflexivity.

Lemma dehydrate_include_all_present_witness :
  ∃ st', dehydrate 0 (sample_store [("include_fields", "id,name,id")]) =
           (st', Ok 0) ∧
         dom (data (st' 0)) = list_to_set (split comma "id,name,id") ∧
         ∀ k, k ∈ split comma "id,name,id" →
              data (st' 0) !! k = sample_data !! k.
Proof.
  apply (dehydrate_include_all_present
           (sample_store [("include_fields", "id,name,id")]) 0 "id,name,id").
  - vm_compute; reflexivity.
  - discriminate.
  - intros k Hk. listed_key Hk.
Defined.

Lemma dehydrate_raises_first_missing_witness :
  dehydrate 0 (sample_store [("include_fields", "id,")]) =
    (sample_store [("include_fields", "id,")], Raise (KeyError "")).
Proof.
  apply (dehydrate_raises_first_missing
           (sample_store [("include_fields", "id,")]) 0 "id," "" ["id"] []).
  - vm_compute; reflexivity.
  - discriminate.
  - vm_compute; reflexivity.
  - intros j Hj. listed_key Hj.
  - vm_compute; reflexivity.
Defined.

Lemma dehydrate_include_ignores_exclude_witness :
  data ((dehydrate 0
           (sample_store [("include_fields", "id");
                          ("exclude_fields", "id")])).1 0) =
  data ((dehydrate 0 (sample_store [("include_fields", "id")])).1 0) ∧
  ∀ e, (dehydrate 0
          (sample_store [("include_fields", "id");
                         ("exclude_fields", "id")])).2 = Raise e ↔
       (dehydrate 0 (sample_store [("include_fields", "id")])).2 = Raise e.
Proof.
  apply (dehydrate_include_ignores_exclude
           (sample_store [("include_fields", "id"); ("exclude_fields", "id")])
           (sample_store [("include_fields", "id")]) 0 0 "id").
  - vm_compute; reflexivity.
  - vm_compute; reflexivity.
  - discriminate.
  - reflexivity.
Defined.

Lemma dehydrate_idempotent_witness :
  ∃ st'',
    dehydrate 0 (dehydrate 0 (sample_store [("exclude_fields", "email")])).1 =
      (st'', Ok 0) ∧
    ∀ l', st'' l' =
          (dehydrate 0 (sample_store [("exclude_fields", "email")])).1 l'.
Proof.
  apply (dehydrate_idempotent
           (sample_store [("exclude_fields", "email")]) 0
           (dehydrate 0 (sample_store [("exclude_fields", "email")])).1 0).
  vm_compute; reflexivity.
Defined.

Lemma dehydrate_exclude_unknown_witness :
  ∃ st', dehydrate 0 (sample_store [("exclude_fields", "phone,fax")]) =
           (st', Ok 0) ∧
         data (st' 0) = sample_data.
Proof.
  apply (dehydrate_exclude_unknown
           (sample_store [("exclude_fields", "phone,fax")]) 0 "phone,fax").
  - vm_compute; reflexivity.
  - vm_compute; reflexivity.
  - discriminate.
  - intros k Hk.
    repeat (apply elem_of_cons in Hk as [->|Hk]);
      [..|by apply elem_of_nil in Hk]; vm_compute; reflexivity.
Defined.

Lemma meta_only_any_value_witness :
  alter_list_data_to_serialize (sample_request [("meta_only", "0")])
    sample_data = Ok {[ "meta" := 4 ]} ∧
  alter_list_data_to_serialize (sample_request [("meta_only", "")])
    sample_data = Ok sample_data.
Proof.
  split.
  - apply (proj1 (meta_only_any_value (sample_request [("meta_only", "0")])
                    sample_data "0" ltac:(vm_compute; reflexivity))).
    + discriminate.
    + vm_compute; reflexivity.
  - apply (proj2 (meta_only_any_value (sample_request [("meta_only", "")])
                    sample_data "" ltac:(vm_compute; reflexivity))).
    reflexivity.
Defined.

Lemma meta_only_without_meta_raises_witness :
  alter_list_data_to_serialize (sample_request [("meta_only", "1")])
    (delete "meta" sample_data) = Raise (KeyError "meta").
Proof.
  apply (meta_only_without_meta_raises (sample_request [("meta_only", "1")])
           (delete "meta" sample_data) "1").
  - vm_compute; reflexivity.
  - discriminate.
  - vm_compute; reflexivity.
Defined.

End ResponseShapingLaws.

(** * Further properties of [MultipartResource] *)

Module MultipartResourceLaws.
Import Py MultipartResource Samples MultipartResourceSpec.

Section WithFramework.
Variables (QueryDict Data Parsed Kwargs Exn DetailOutcome : Type).
Variable update : QueryDict -> QueryDict -> QueryDict.
Variable super_deserialize :
  HttpRequest QueryDict -> Data -> string -> heap QueryDict ->
  heap QueryDict * result Exn (value Parsed).
Variables super_put_detail super_patch_detail :
  HttpRequest QueryDict -> Kwargs -> DetailOutcome.

Lemma startswith_app (p s : string) : startswith (p +:+ s) p = true.
Proof.
  unfold startswith. induction p as [|c p IH]; simpl.
  - by destruct s.
  - by destruct (ascii_dec c c).
Qed.

(** X8: the form-encoded type is matched exactly, the multipart type by
    prefix: a format made of [application/x-www-form-urlencoded] and a
    non-empty suffix (a [charset] parameter, say) is handed to the
    superclass, while [multipart/form-data] followed by anything returns a
    new dictionary. *)
Theorem deserialize_exact_and_prefix (request : HttpRequest QueryDict)
    (data : Data) (format : option string) (h : heap QueryDict)
    (suffix : string) :
  let fmt :=
    match format with
    | Some (String c f) => String c f
    | _ => default "application/json" (META _ request !! "CONTENT_TYPE")
    end in
  (fmt = "application/x-www-form-urlencoded" +:+ suffix → suffix ≠ "" →
   deserialize _ _ _ _ update super_deserialize request data format h =
     super_deserialize request data fmt h) ∧
  (fmt = "multipart/form-data" +:+ suffix →
   ∃ h', deserialize _ _ _ _ update super_deserialize request data format h =
           (h', Ok (Ref (next _ h)))).
Proof.
  intros fmt. unfold deserialize.
  rewrite deserialize_format_cases. fold fmt. split.
  - intros -> Hsuffix.
    replace (String.eqb ("application/x-www-form-urlencoded" +:+ suffix)
               "application/x-www-form-urlencoded") with false; [done|].
    symmetry. apply String.eqb_neq. intros Heq.
    apply Hsuffix.
    change "application/x-www-form-urlencoded"
      with ("application/x-www-form-urlencoded" +:+ "") in Heq at 2.
    by apply (inj (String.app _)) in Heq.
  - intros ->.
    assert (String.eqb ("multipart/form-data" +:+ suffix)
              "application/x-www-form-urlencoded" = false) as ->
      by reflexivity.
    rewrite startswith_app.
    cbn [copy]. eexists. reflexivity.
Qed.

(** X9: a request that already has [_body], or whose [CONTENT_TYPE] is
    missing or does not start with [multipart/form-data], reaches the
    superclass [put_detail] and [patch_detail] exactly as it came: an
    existing body is never overwritten. *)
Theorem detail_keeps_request (request : HttpRequest QueryDict)
    (kwargs : Kwargs) :
  _body _ request ≠ None ∨
  startswith (default "" (META _ request !! "CONTENT_TYPE"))
    "multipart/form-data" = false →
  put_detail _ _ _ super_put_detail request kwargs =
    super_put_detail request kwargs ∧
  patch_detail _ _ _ super_patch_detail request kwargs =
    super_patch_detail request kwargs.
Proof.
  intros Hkeep. unfold put_detail, patch_detail, ensure_body, hasattr_body.
  destruct Hkeep as [Hbody| ->]; [|done].
  destruct (_body _ request); [|done]. by rewrite andb_false_r.
Qed.

End WithFramework.

Lemma deserialize_exact_and_prefix_witness :
  deserialize _ _ _ _ app sample_super_deserialize
    (sample_upload "application/x-www-form-urlencoded; charset=UTF-8")
    "a=1" None sample_heap =
    (sample_heap,
     Ok (Other "application/x-www-form-urlencoded; charset=UTF-8a=1")) ∧
  ∃ h', deserialize _ _ _ _ app sample_super_deserialize
          (sample_upload "multipart/form-data; boundary=x") "" None
          sample_heap = (h', Ok (Ref 1)).
Proof.
  split.
  - apply (proj1 (deserialize_exact_and_prefix _ _ _ _ app
                    sample_super_deserialize
                    (sample_upload
                       "application/x-www-form-urlencoded; charset=UTF-8")
                    "a=1" None sample_heap "; charset=UTF-8")).
    + vm_compute; reflexivity.
    + discriminate.
  - apply (proj2 (deserialize_exact_and_prefix _ _ _ _ app
                    sample_super_deserialize
                    (sample_upload "multipart/form-data; boundary=x")
                    "" None sample_heap "; boundary=x")).
    vm_compute; reflexivity.
Defined.

Lemma detail_keeps_request_witness :
  put_detail _ _ _ sample_super_detail (sample_upload "application/json") [] =
    sample_super_detail (sample_upload "application/json") [] ∧
  patch_detail _ _ _ sample_super_detail
    (sample_upload "application/json") [] =
    sample_super_detail (sample_upload "application/json") [].
Proof.
  apply (detail_keeps_request _ _ _ sample_super_detail sample_super_detail
           (sample_upload "application/json") []).
  right. vm_compute; reflexivity.
Defined.

End MultipartResourceLaws.

(** * Properties of [get_fields] *)

Module ResourceFieldsSpec.
Import Py ResourceFields Samples.
Local Open Scope list_scope.

Section WithFields.
Variables (Callable Attrs Fields Excludes : Type).
Variable super_get_fields :
  Fields -> Excludes -> field_store Callable Attrs ->
  field_store Callable Attrs * gmap string loc.

Abbreviation detail := (set_use_in Callable Attrs (UseInStr "detail")).
Abbreviation mark := (mark_detail Callable Attrs).

Implicit Types (st : field_store Callable Attrs) (l : loc)
  (items : list (string * loc)) (names : list string).

(** What the loop has done to one object once it is over. *)
Lemma foldl_mark_detail names items st l :
  foldl (mark names) st items l =
    if decide (Exists (λ item, item.1 ∈ names ∧ item.2 = l) items)
    then detail (st l) else st l.
Proof.
  revert st. induction items as [|item items IH]; intros st.
  - cbn [foldl]. destruct (decide _) as [Hex|]; [|done].
    by apply Exists_nil in Hex.
  - cbn [foldl]. rewrite IH.
    assert (mark names st item l =
            if decide (item.1 ∈ names ∧ item.2 = l) then detail (st l)
            else st l) as Hitem.
    { unfold mark_detail, field_store_set.
      destruct (decide (item.1 ∈ names ∧ item.2 = l)) as [[Hin <-]|Hno].
      - by rewrite bool_decide_eq_true_2, Nat.eqb_refl.
      - destruct (bool_decide (item.1 ∈ names)) eqn:Hin; [|done].
        apply bool_decide_eq_true_1 in Hin.
        destruct (Nat.eqb l item.2) eqn:Heq; [|done].
        apply Nat.eqb_eq in Heq. by destruct Hno. }
    rewrite Hitem.
    destruct (decide (item.1 ∈ names ∧ item.2 = l)) as [Hhere|Hhere].
    + rewrite (decide_True (P := Exists _ (item :: items)))
        by (by apply Exists_cons_hd).
      by destruct (decide (Exists _ items)).
    + destruct (decide (Exists _ items)) as [Hex|Hex].
      * by rewrite decide_True by (by apply Exists_cons_tl).
      * rewrite decide_False; [done|].
        by intros [?|?]%Exists_cons.
Qed.

(** X10: every field named in a non-empty [list_exclude_fields] comes
    back with [use_in] set to ['detail'] and its other attributes as the
    superclass built them. *)
Theorem get_fields_marks_listed (names : list string) (fields : Fields)
    (excludes : Excludes) st (name : string) l :
  name ∈ names →
  (super_get_fields fields excludes st).2 !! name = Some l →
  let after :=
    (get_fields _ _ _ _ super_get_fields (Some names) fields excludes st).1 in
  use_in _ _ (after l) = UseInStr "detail" ∧
  attrs _ _ (after l) = attrs _ _ ((super_get_fields fields excludes st).1 l).
Proof.
  intros Hname Hl after. subst after. unfold get_fields.
  destruct (super_get_fields fields excludes st) as [st1 final_fields].
  cbn [fst snd] in *.
  destruct names as [|n names]; [by apply elem_of_nil in Hname|].
  cbn [fst]. rewrite foldl_mark_detail, decide_True; [done|].
  apply Exists_exists. exists (name, l). split; [|done].
  by apply elem_of_map_to_list.
Qed.

(** X11: [get_fields] returns the dictionary of the superclass itself,
    and a field object that no listed name refers to is left as the
    superclass built it; in particular nothing changes at all when
    [list_exclude_fields] is missing or empty, and a listed name that is
    not a field is ignored. *)
Theorem get_fields_leaves_others (list_exclude_fields : option (list string))
    (fields : Fields) (excludes : Excludes) st :
  let result :=
    get_fields _ _ _ _ super_get_fields list_exclude_fields fields excludes
      st in
  let final_fields := (super_get_fields fields excludes st).2 in
  result.2 = final_fields ∧
  ∀ l, (∀ name, name ∈ default [] list_exclude_fields →
                final_fields !! name ≠ Some l) →
       result.1 l = (super_get_fields fields excludes st).1 l.
Proof.
  intros result final_fields. subst result final_fields. unfold get_fields.
  destruct (super_get_fields fields excludes st) as [st1 final_fields].
  cbn [fst snd].
  destruct list_exclude_fields as [[|n names]|]; [done| |done].
  cbn [fst snd default from_option id]. split; [done|].
  intros l Hl. rewrite foldl_mark_detail, decide_False; [done|].
  intros ([name l'] & Hin & Hname & Heq)%Exists_exists.
  cbn [fst snd] in *. subst l'.
  apply elem_of_map_to_list in Hin. by apply (Hl name).
Qed.

End WithFields.

Lemma get_fields_marks_listed_witness :
  use_in _ _
    ((get_fields _ _ _ _ sample_super_get_fields (Some ["email"; "phone"])
        [] [] sample_fields).1 1) = UseInStr "detail" ∧
  attrs _ _
    ((get_fields _ _ _ _ sample_super_get_fields (Some ["email"; "phone"])
        [] [] sample_fields).1 1) =
  attrs _ _ ((sample_super_get_fields [] [] sample_fields).1 1).
Proof.
  apply (get_fields_marks_listed _ _ _ _ sample_super_get_fields
           ["email"; "phone"] [] [] sample_fields "email" 1).
  - left.
  - vm_compute; reflexivity.
Defined.

Lemma get_fields_leaves_others_witness :
  (get_fields _ _ _ _ sample_super_get_fields (Some ["email"; "phone"])
     [] [] sample_fields).1 0 =
  (sample_super_get_fields [] [] sample_fields).1 0.
Proof.
  apply (proj2 (get_fields_leaves_others _ _ _ _ sample_super_get_fields
                  (Some ["email"; "phone"]) [] [] sample_fields) 0).
  intros name Hname.
  repeat (apply elem_of_cons in Hname as [->|Hname]);
    [..|by apply elem_of_nil in Hname]; vm_compute; discriminate.
Defined.

End ResourceFieldsSpec.

(** * Properties of [get_filters] *)

Module ResourceFiltersSpec.
Import Py ResourceFilters Samples.

Section WithFramework.
Variables (QueryDict KV Built : Type).
Variable qd_update : QueryDict -> gmap string KV -> QueryDict.
Variable remove_api_resource_names : gmap string KV -> gmap string KV.
Variable build_filters :
  loc -> MultipartResource.heap (dict_obj QueryDict KV) -> Built.

Abbreviation next := (MultipartResource.next (dict_obj QueryDict KV)).
Abbreviation objs := (MultipartResource.objs (dict_obj QueryDict KV)).

(** X12: [get_filters] hands [build_filters] a dictionary object that did
    not exist before the call and leaves every object that did,
    [request.GET] included, as it was: with a [GET] the new dictionary is
    the contents of [request.GET] updated with the cleaned keyword
    arguments, without one it is exactly the cleaned keyword arguments. *)
Theorem get_filters_fresh_dictionary (request : HttpRequest)
    (kwargs : gmap string KV)
    (h : MultipartResource.heap (dict_obj QueryDict KV)) :
  (∀ get, GET request = Some get → get < next h) →
  ∃ filters h',
    get_filters _ _ _ qd_update remove_api_resource_names build_filters
      request kwargs h = build_filters filters h' ∧
    (next h ≤ filters)%nat ∧
    (∀ l, l < next h → objs h' l = objs h l) ∧
    objs h' filters =
      match GET request with
      | Some get =>
          obj_update _ _ qd_update (objs h get)
            (remove_api_resource_names kwargs)
      | None => PlainDict (remove_api_resource_names kwargs)
      end.
Proof.
  intros Hvalid. unfold get_filters, alloc, MultipartResource.copy,
    MultipartResource.heap_set.
  destruct (GET request) as [get|]; cbn [MultipartResource.next
    MultipartResource.objs]; eexists _, _;
    (split; [reflexivity|]); cbn [MultipartResource.next
    MultipartResource.objs]; rewrite ?Nat.eqb_refl.
  - specialize (Hvalid get eq_refl).
    split; [lia|]. split.
    + intros l Hl.
      by rewrite !(proj2 (Nat.eqb_neq _ _)) by lia.
    + by rewrite (proj2 (Nat.eqb_neq get _)) by lia.
  - split; [lia|]. split.
    + intros l Hl. by rewrite (proj2 (Nat.eqb_neq _ _)) by lia.
    + cbn [obj_update]. by rewrite (right_id_L ∅ (∪)).
Qed.

End WithFramework.

Lemma get_filters_fresh_dictionary_witness :
  ∃ filters h',
    get_filters _ _ _ sample_qd_update id sample_build_filters
      {| GET := Some 0 |} {[ "pk" := "7" ]} sample_query_heap =
      sample_build_filters filters h' ∧
    (1 ≤ filters)%nat ∧
    (∀ l, l < 1 →
          MultipartResource.objs _ h' l = QDict [("limit", "20")]) ∧
    MultipartResource.objs _ h' filters =
      obj_update _ _ sample_qd_update (QDict [("limit", "20")])
        (id {[ "pk" := "7" ]}).
Proof.
  apply (get_filters_fresh_dictionary _ _ _ sample_qd_update id
           sample_build_filters {| GET := Some 0 |} {[ "pk" := "7" ]}
           sample_query_heap).
  intros get [= <-]. vm_compute; lia.
Defined.

End ResourceFiltersSpec.

(** * Further properties of [authorize_api] *)

Module AuthorizeApiLaws.
Import AuthorizeApi Samples AuthorizeApiSpec.
Local Open Scope list_scope.

Section WithResource.
Variables (HttpRequest Args Response Auth OtherExn World : Type).
Variable method_check :
  HttpRequest -> list string -> hook Response Auth OtherExn World unit.
Variable throttle_check :
  HttpRequest -> hook Response Auth OtherExn World unit.
Variable is_authenticated :
  HttpRequest -> hook Response Auth OtherExn World unit.
Variable view_func :
  HttpRequest -> Args -> hook Response Auth OtherExn World Response.
Variable auth_truthy : Auth -> bool.

(** X13: the wrapped view never ends without a value or an exception of
    its own making: a response it returns is the one carried by an
    [ImmediateHttpResponse] of [is_authenticated] or the one the view
    returned, and an exception it raises was raised by [method_check],
    [throttle_check] or the view, or is an exception of [is_authenticated]
    other than [ImmediateHttpResponse]. *)
Theorem wrapped_view_outcome_origin (allowed : list string)
    (custom_auth : option Auth) (request : HttpRequest) (args : Args)
    (s : state HttpRequest Args Auth World) :
  match (_wrapped_view _ _ _ _ _ _ method_check throttle_check
           is_authenticated view_func auth_truthy allowed custom_auth
           request args s).2 with
  | Normal _ => False
  | Return response =>
      (∃ r r', is_authenticated request r =
               (r', inl (ImmediateHttpResponse response))) ∨
      (∃ r r', view_func request args r = (r', inr response))
  | Raise e =>
      (∃ r r', method_check request allowed r = (r', inl e)) ∨
      (∃ r r', throttle_check request r = (r', inl e)) ∨
      (∃ r r' e', is_authenticated request r = (r', inl e) ∧
                  e = OtherException e') ∨
      (∃ r r', view_func request args r = (r', inl e))
  end.
Proof.
  destruct (method_check request allowed (resource _ _ _ _ s))
    as [r1 [e|[]]] eqn:Hmc.
  { erewrite run_method_check_raises by exact Hmc. cbn [snd]. eauto. }
  destruct (throttle_check request r1) as [r2 [e|[]]] eqn:Htc.
  { erewrite run_throttle_check_raises by (exact Hmc || exact Htc).
    cbn [snd]. eauto. }
  destruct (is_authenticated request
              (during_authentication _ _ auth_truthy custom_auth r2))
    as [r3 o] eqn:Hia.
  rewrite (run_is_authenticated _ _ _ _ _ _ _ _ _ _ _ _ _ _ _ _ _ _ _ _
             Hmc Htc Hia).
  destruct o as [[response|e]|[]]; cbn [snd].
  - eauto.
  - right; right; left. eauto.
  - destruct (view_func request args _) as [r4 [e|response]] eqn:Hvf;
      cbn [snd]; eauto 8.
Qed.

End WithResource.

End AuthorizeApiLaws.
